(** * US Labor Market Dashboard (BLS_app.py): the data logic, embedded and verified

    The script loads a table of labor-market observations, annotates every
    row with a display name taken from a fixed catalog, filters the table by
    the series names and the year range chosen in the sidebar, and derives
    the inputs of its views from the result: two single-series line plots, a
    two-series comparison table, two totals for a pie chart, a table of
    descriptive statistics, and a CSV export.

    Data frames are lists of records in row order.  The [value] column is a
    binary64 float, as pandas reads it; the kernel's primitive floats give it
    the same arithmetic.  Streamlit and plotly calls carry no data logic and
    are left out: each view is represented by the table handed to it. *)

From Stdlib Require Import ZArith Floats Ascii String.
From Stdlib Require Uint63.
From Stdlib Require Import DecimalString DecimalZ DecimalPos Sorted.
From stdpp Require Import strings list.

Local Open Scope string_scope.
Local Open Scope Z_scope.

(** ** Data model *)

(** A calendar date, the parsed [date] column. *)
Record Date := mkDate { d_year : Z; d_month : Z; d_day : Z }.

#[global] Instance Date_eq_dec : EqDecision Date.
Proof. solve_decision. Defined.

(** One row of [BLS_data.csv] as [load_data] returns it. *)
Record Observation := mkObs {
  o_series_id : string;
  o_date : Date;
  o_year : Z;
  o_value : float
}.

(** One row of [data] once the [series_name] column has been added. *)
Record Row := mkRow {
  series_id : string;
  date : Date;
  year : Z;
  value : float;
  series_name : string
}.

(** ** Series catalog (lines 13-33) *)

(** The dict literal, as its [items()] in insertion order. *)
Definition series_names : list (string * string) :=
  [ ("LNS12000000", "Civilian Employment");
    ("LNS13000000", "Civilian Unemployment");
    ("LNS14000000", "Unemployment Rate");
    ("CES0000000001", "Total Nonfarm Employment");
    ("CES0500000002", "Average Weekly Hours of All Employees");
    ("CES0500000003", "Average Hourly Earnings of All Employees") ].

(** [d.get(k)]: the value stored under key [k], if any. *)
Fixpoint dict_get (d : list (string * string)) (k : string) : option string :=
  match d with
  | [] => None
  | (k', v) :: d' => if decide (k' = k) then Some v else dict_get d' k
  end.

(** [Series.map(series_names)] on one cell: a missing key gives NaN, here [None]. *)
Definition map_series_names (sid : string) : option string :=
  dict_get series_names sid.

(** [fillna('Unknown Series')] on one cell. *)
Definition fillna (fill : string) (cell : option string) : string :=
  match cell with
  | Some s => s
  | None => fill
  end.

(** The display name written into [data['series_name']] for a series id. *)
Definition displayName (sid : string) : string :=
  fillna "Unknown Series" (map_series_names sid).

Definition annotate_row (o : Observation) : Row :=
  {| series_id := o_series_id o;
     date := o_date o;
     year := o_year o;
     value := o_value o;
     series_name := displayName (o_series_id o) |}.

(** [data] after lines 32-33. *)
Definition annotate (raw : list Observation) : list Row :=
  annotate_row <$> raw.

(** ** Sidebar options (line 42) *)

(** [Series.unique()]: distinct values in order of first appearance. *)
Fixpoint unique_from (seen : list string) (l : list string) : list string :=
  match l with
  | [] => []
  | x :: l' =>
      if decide (x ∈ seen) then unique_from seen l'
      else x :: unique_from (x :: seen) l'
  end.

Definition unique (l : list string) : list string := unique_from [] l.

Definition available_options (data : list Row) : list string :=
  unique (series_name <$> data).

(** ** Filter engine (lines 74-83) *)

(** The list comprehension over [series_names.items()]. *)
Definition selected_series_ids (selected_series_names : list string) : list string :=
  fst <$> filter (λ item, item.2 ∈ selected_series_names) series_names.

(** [Series.between(lo, hi)], inclusive on both ends. *)
Definition between (lo hi y : Z) : Prop := lo ≤ y ∧ y ≤ hi.

#[global] Instance between_dec lo hi y : Decision (between lo hi y).
Proof. unfold between. apply _. Defined.

(** The boolean mask of lines 80-83 on one row. *)
Definition keep_row (ids : list string) (selected_years : Z * Z) (r : Row) : Prop :=
  series_id r ∈ ids ∧ between selected_years.1 selected_years.2 (year r).

#[global] Instance keep_row_dec ids yrs r : Decision (keep_row ids yrs r).
Proof. unfold keep_row. apply _. Defined.

Definition filtered_data (data : list Row) (selected_series_names : list string)
    (selected_years : Z * Z) : list Row :=
  filter (keep_row (selected_series_ids selected_series_names) selected_years) data.

(** The mask spelled out on the catalog. *)
Definition selected (names : list string) (yrs : Z * Z) (r : Row) : Prop :=
  (∃ name, map_series_names (series_id r) = Some name ∧ name ∈ names) ∧
  yrs.1 ≤ year r ∧ year r ≤ yrs.2.

(** ** Single-series slices (lines 121, 146, 194-195) *)

(** [df[df['series_id'] == sid]]. *)
Definition series_slice (sid : string) (df : list Row) : list Row :=
  filter (λ r, series_id r = sid) df.

Definition unemployment_data (filtered : list Row) : list Row :=
  series_slice "LNS14000000" filtered.

Definition nonfarm_data (filtered : list Row) : list Row :=
  series_slice "CES0000000001" filtered.

(** ** Weekly hours against hourly earnings (lines 194-200) *)

(** [df[['date', 'value']].rename(columns={'value': ...})]: the two columns
    kept; the new column name is carried by the field of [MergedRow] the
    value ends up in. *)
Definition date_value (df : list Row) : list (Date * float) :=
  (λ r, (date r, value r)) <$> df.

Record MergedRow := mkMerged {
  m_date : Date;
  avg_weekly_hours : float;
  avg_hourly_earnings : float
}.

(** [pd.merge(left, right, on='date')]: an inner join, one output row per
    pair of a left and a right row with equal dates, in the order of the
    left rows and, for one left row, of the right rows. *)
Definition merge_on_date (left right : list (Date * float)) : list MergedRow :=
  l ← left;
  (λ r, mkMerged l.1 l.2 r.2) <$> filter (λ r, r.1 = l.1) right.

(** The rows of [right] that one left row with date [d] is joined with. *)
Definition matches (d : Date) (right : list (Date * float)) : list (Date * float) :=
  filter (λ r, r.1 = d) right.

Definition hours_data (data : list Row) : list Row :=
  series_slice "CES0500000002" data.

Definition earnings_data (data : list Row) : list Row :=
  series_slice "CES0500000003" data.

Definition merged_data (data : list Row) : list MergedRow :=
  merge_on_date (date_value (hours_data data)) (date_value (earnings_data data)).

(** Two weekly-hours rows and two hourly-earnings rows of one month. *)
Definition repeated_month : list Row :=
  [ mkRow "CES0500000002" (mkDate 2020 1 1) 2020 34.25%float
      "Average Weekly Hours of All Employees";
    mkRow "CES0500000002" (mkDate 2020 1 1) 2020 34.5%float
      "Average Weekly Hours of All Employees";
    mkRow "CES0500000003" (mkDate 2020 1 1) 2020 28.5%float
      "Average Hourly Earnings of All Employees";
    mkRow "CES0500000003" (mkDate 2020 1 1) 2020 28.75%float
      "Average Hourly Earnings of All Employees" ].

(** ** Numeric reductions of pandas on a float column *)

Definition float_of_nat (n : nat) : float :=
  PrimFloat.of_uint63 (Uint63.of_Z (Z.of_nat n)).

(** The mask of missing values, and the column with them replaced by 0. *)
Definition notna (v : float) : Prop := PrimFloat.is_nan v = false.

#[global] Instance notna_dec v : Decision (notna v).
Proof. unfold notna. apply _. Defined.

Definition fill0 (vs : list float) : list float :=
  (λ v, if PrimFloat.is_nan v then 0%float else v) <$> vs.

(** numpy's summation of a float64 array ([DOUBLE_pairwise_sum]).  Fewer
    than 8 values are added one after the other, starting from -0.0.  Up to
    128 values are added in eight interleaved partial sums, which are then
    combined in pairs; the values left over after the last full group of
    eight are added one after the other. *)
Fixpoint unrolled_sum (r0 r1 r2 r3 r4 r5 r6 r7 : float) (a : list float) : float :=
  match a with
  | a0 :: a1 :: a2 :: a3 :: a4 :: a5 :: a6 :: a7 :: a' =>
      unrolled_sum (r0 + a0) (r1 + a1) (r2 + a2) (r3 + a3)
                   (r4 + a4) (r5 + a5) (r6 + a6) (r7 + a7) a'
  | rest =>
      foldl PrimFloat.add (((r0 + r1) + (r2 + r3)) + ((r4 + r5) + (r6 + r7))) rest
  end%float.

Definition block_sum (a : list float) : float :=
  match a with
  | a0 :: a1 :: a2 :: a3 :: a4 :: a5 :: a6 :: a7 :: a' =>
      unrolled_sum a0 a1 a2 a3 a4 a5 a6 a7 a'
  | _ => foldl PrimFloat.add (-0)%float a
  end.

(** More than 128 values are split in two parts, the first of a length that
    is a multiple of 8, each summed the same way.  [fuel] bounds the depth of
    the splitting; the length of the array is always enough
    ([pairwise_sum_fuel]). *)
Fixpoint pairwise_sum (fuel : nat) (a : list float) : float :=
  let n := length a in
  if (n <=? 128)%nat then block_sum a
  else
    match fuel with
    | O => block_sum a
    | S fuel' =>
        let n2 := (n / 2 - (n / 2) mod 8)%nat in
        (pairwise_sum fuel' (take n2 a) + pairwise_sum fuel' (drop n2 a))%float
    end.

(** [ndarray.sum()]: the reduction starts from the identity 0.0 and adds the
    pairwise sum of the array to it, so an empty array sums to 0.0. *)
Definition np_sum (vs : list float) : float :=
  (0 + pairwise_sum (length vs) vs)%float.

(** [Series.sum()] with the default [skipna=True], [min_count=0]. *)
Definition sum (vs : list float) : float := np_sum (fill0 vs).






(** [Series.count()]: the number of values that are not missing. *)
Definition count (vs : list float) : nat := length (filter notna vs).

(** [Series.mean()]. *)
Definition mean (vs : list float) : float :=
  match count vs with
  | O => PrimFloat.nan
  | n => (sum vs / float_of_nat n)%float
  end.

(** [Series.std()], [ddof=1]: undefined (NaN) unless the count exceeds 1. *)
Definition std (vs : list float) : float :=
  match count vs with
  | O | S O => PrimFloat.nan
  | n =>
      let avg := (sum vs / float_of_nat n)%float in
      let sqr := (λ v, ((avg - v) * (avg - v))%float) <$> filter notna vs in
      PrimFloat.sqrt (np_sum sqr / float_of_nat (n - 1))%float
  end.

(** [Series.min()] and [Series.max()]: over the values that are not missing,
    NaN when there is none. *)
Definition np_min (v : float) (vs : list float) : float :=
  foldl (λ m x, if (x <? m)%float then x else m) v vs.

Definition np_max (v : float) (vs : list float) : float :=
  foldl (λ m x, if (m <? x)%float then x else m) v vs.

Definition min (vs : list float) : float :=
  match filter notna vs with
  | [] => PrimFloat.nan
  | v :: vs' => np_min v vs'
  end.

Definition max (vs : list float) : float :=
  match filter notna vs with
  | [] => PrimFloat.nan
  | v :: vs' => np_max v vs'
  end.

(** Ascending sort of the values that are not missing. *)
Fixpoint insert_float (x : float) (l : list float) : list float :=
  match l with
  | [] => [x]
  | y :: l' => if (x <=? y)%float then x :: l else y :: insert_float x l'
  end.

Definition sort_floats (l : list float) : list float :=
  foldr insert_float [] l.

(** numpy's linear interpolation between two neighbours. *)
Definition lerp (a b t : float) : float :=
  let diff_b_a := (b - a)%float in
  if (0.5 <=? t)%float then (b - diff_b_a * (1 - t))%float
  else (a + diff_b_a * t)%float.

(** [Series.quantile(k/4)], linear interpolation: the virtual index
    [(n - 1) * k / 4] is split into its integer part and its fraction. *)
Definition quantile (k : nat) (vs : list float) : float :=
  let sorted := sort_floats (filter notna vs) in
  match sorted with
  | [] => PrimFloat.nan
  | _ =>
      let n := length sorted in
      let pos := (k * (n - 1))%nat in
      let prev := (pos / 4)%nat in
      let next := Nat.min (S prev) (n - 1) in
      let gamma := (float_of_nat (pos mod 4) / 4)%float in
      lerp (nth prev sorted PrimFloat.nan) (nth next sorted PrimFloat.nan) gamma
  end.

(** ** Summary statistics (line 322) *)

(** One row of [describe()]. *)
Record Describe := mkDescribe {
  d_count : nat;
  d_mean : float;
  d_std : float;
  d_min : float;
  d_p25 : float;
  d_p50 : float;
  d_p75 : float;
  d_max : float
}.

Definition describe (vs : list float) : Describe :=
  {| d_count := count vs;
     d_mean := mean vs;
     d_std := std vs;
     d_min := min vs;
     d_p25 := quantile 1 vs;
     d_p50 := quantile 2 vs;
     d_p75 := quantile 3 vs;
     d_max := max vs |}.

(** Group keys of [groupby] (default [sort=True]): the distinct keys in
    ascending order. *)
Fixpoint insert_key (k : string) (l : list string) : list string :=
  match l with
  | [] => [k]
  | k' :: l' => if String.leb k k' then k :: l else k' :: insert_key k l'
  end.

Definition group_keys (keys : list string) : list string :=
  foldr insert_key [] (unique keys).

(** The rows of one group, in frame order. *)
Definition group_rows (g : string) (df : list Row) : list Row :=
  filter (λ r, series_name r = g) df.

(** [df.groupby('series_name')['value'].describe()]: one row per group. *)
Definition summary (filtered : list Row) : list (string * Describe) :=
  (λ g, (g, describe (value <$> group_rows g filtered)))
    <$> group_keys (series_name <$> filtered).

(** ** Employment against unemployment (lines 275-280) *)

Definition year_slice (sid : string) (selected_years : Z * Z) (data : list Row)
    : list Row :=
  filter (λ r, series_id r = sid ∧ between selected_years.1 selected_years.2 (year r))
         data.

Definition filtered_employment (data : list Row) (selected_years : Z * Z) : list Row :=
  year_slice "LNS12000000" selected_years data.

Definition filtered_unemployment (data : list Row) (selected_years : Z * Z) : list Row :=
  year_slice "LNS13000000" selected_years data.

Definition employment_total (data : list Row) (selected_years : Z * Z) : float :=
  sum (value <$> filtered_employment data selected_years).

Definition unemployment_total (data : list Row) (selected_years : Z * Z) : float :=
  sum (value <$> filtered_unemployment data selected_years).

(** ** Delimited text: the writer behind [to_csv] and the reader behind [read_csv] *)

Definition COMMA : ascii := ","%char.
Definition QUOTE : ascii := "034"%char.
Definition LF : ascii := "010"%char.
Definition CR : ascii := "013"%char.

(** A character that forces the writer to quote the field ([QUOTE_MINIMAL]). *)
Definition special (c : ascii) : Prop :=
  c = COMMA ∨ c = QUOTE ∨ c = LF ∨ c = CR.

#[global] Instance special_dec c : Decision (special c).
Proof. unfold special. apply _. Defined.

Fixpoint needs_quote (s : string) : bool :=
  match s with
  | EmptyString => false
  | String c s' => bool_decide (special c) || needs_quote s'
  end.

(** Quote characters are doubled inside a quoted field. *)
Fixpoint escape (s : string) : string :=
  match s with
  | EmptyString => EmptyString
  | String c s' =>
      if decide (c = QUOTE) then String QUOTE (String QUOTE (escape s'))
      else String c (escape s')
  end.

Definition csv_field (s : string) : string :=
  if needs_quote s then String QUOTE (escape s +:+ String QUOTE EmptyString)
  else s.

(** One record: the fields joined by commas, closed by the line terminator. *)
Fixpoint csv_record (fs : list string) : string :=
  match fs with
  | [] => String LF EmptyString
  | [f] => csv_field f +:+ String LF EmptyString
  | f :: fs' => csv_field f +:+ String COMMA (csv_record fs')
  end.

Fixpoint csv_text (records : list (list string)) : string :=
  match records with
  | [] => EmptyString
  | fs :: records' => csv_record fs +:+ csv_text records'
  end.















(** ** Cell formats *)

Definition digit_char (n : Z) : ascii := ascii_of_nat (Z.to_nat (48 + n)).


(** Integers in decimal, with a minus sign when negative. *)
Definition format_int (z : Z) : string := NilZero.string_of_int (Z.to_int z).


(** Dates as [YYYY-MM-DD]. *)
Definition pad2 (n : Z) : string :=
  String (digit_char (n / 10)) (String (digit_char (n mod 10)) EmptyString).

Definition pad4 (n : Z) : string :=
  String (digit_char (n / 1000)) (String (digit_char (n / 100 mod 10)) (pad2 (n mod 100))).

Definition format_date (d : Date) : string :=
  pad4 (d_year d) +:+ String "-" (pad2 (d_month d) +:+ String "-" (pad2 (d_day d))).








(** Position of a column in the header. *)
Fixpoint column_index (name : string) (header : list string) : option nat :=
  match header with
  | [] => None
  | h :: header' =>
      if decide (h = name) then Some O else S <$> column_index name header'
  end.

Definition cell (header record : list string) (name : string) : option string :=
  i ← column_index name header; record !! i.

(** ** Floats as text *)

(** Comparison of [a * 2^p] with [b * 10^q], exactly. *)
Definition compare_scaled (a p b q : Z) : comparison :=
  (a * 2 ^ Z.max p 0 * 10 ^ Z.max (- q) 0 ?= b * 10 ^ Z.max q 0 * 2 ^ Z.max (- p) 0).

(** Integer part of [m * 2^e / 10^s]. *)
Definition floor_scaled (m e s : Z) : Z :=
  (m * 2 ^ Z.max e 0 * 10 ^ Z.max (- s) 0) / (2 ^ Z.max (- e) 0 * 10 ^ Z.max s 0).

(** Whether [q * 10^s] is read back as the float [m * 2^e]: whether it lies
    between the midpoints to the two neighbouring floats, the midpoints
    included when [m] is even. *)
Definition rounds_to (m e q s : Z) : bool :=
  let '(lo, elo) :=
    if (m =? 2 ^ 52) && (-1074 <? e) then (4 * m - 1, e - 2) else (2 * m - 1, e - 1) in
  let below := compare_scaled lo elo q s in
  let above := compare_scaled (2 * m + 1) (e - 1) q s in
  if Z.even m
  then negb (if below is Gt then true else false) && negb (if above is Lt then true else false)
  else (if below is Lt then true else false) && (if above is Gt then true else false).

(** The decimal exponent of [m * 2^e]: the [k] with [10^k <= m * 2^e < 10^(k+1)]. *)
Definition decimal_exponent (m e : Z) : Z :=
  let est := (e + Z.log2 m) * 1233 / 4096 in
  if compare_scaled m e 1 est is Lt then est - 1
  else if compare_scaled m e 1 (est + 1) is Lt then est
  else est + 1.

(** The decimal of [p] digits that is read back as [m * 2^e], if any; of two,
    the one nearer to it. *)
Definition candidate (m e k p : Z) : option (Z * Z) :=
  let s := k - (p - 1) in
  let q := floor_scaled m e s in
  match rounds_to m e q s, rounds_to m e (q + 1) s with
  | true, true =>
      match compare_scaled (2 * m) e (2 * q + 1) s with
      | Lt => Some (q, s)
      | Gt => Some (q + 1, s)
      | Eq => Some (if Z.even q then q else q + 1, s)
      end
  | true, false => Some (q, s)
  | false, true => Some (q + 1, s)
  | false, false => None
  end.

(** The shortest such decimal: digits [q] and exponent [s] of the last digit. *)
Fixpoint shortest_from (fuel : nat) (m e k p : Z) : Z * Z :=
  match candidate m e k p with
  | Some c => c
  | None =>
      match fuel with
      | O => (floor_scaled m e (k - 16), k - 16)
      | S fuel' => shortest_from fuel' m e k (p + 1)
      end
  end.

Fixpoint strip_zeros (fuel : nat) (q s : Z) : Z * Z :=
  match fuel with
  | O => (q, s)
  | S fuel' => if (q mod 10 =? 0) && negb (q =? 0) then strip_zeros fuel' (q / 10) (s + 1)
               else (q, s)
  end.

Definition zeros (n : Z) : string := string_of_list_ascii (replicate (Z.to_nat n) "0"%char).

Definition string_take (n : Z) (s : string) : string := String.substring 0 (Z.to_nat n) s.
Definition string_drop (n : Z) (s : string) : string :=
  String.substring (Z.to_nat n) (String.length s - Z.to_nat n) s.

(** Digits [ds] with decimal exponent [k] of the first digit, written without
    an exponent when [1e-4 <= value < 1e16] and with one otherwise. *)
Definition place_point (ds : string) (k : Z) : string :=
  let n := Z.of_nat (String.length ds) in
  if (-4 <=? k) && (k <? 16) then
    if k <? 0 then "0." +:+ zeros (- k - 1) +:+ ds
    else if n <=? k + 1 then ds +:+ zeros (k + 1 - n) +:+ ".0"
    else string_take (k + 1) ds +:+ "." +:+ string_drop (k + 1) ds
  else
    string_take 1 ds +:+ (if 1 <? n then "." +:+ string_drop 1 ds else "")
      +:+ "e" +:+ (if k <? 0 then "-" else "+")
      +:+ (if Z.abs k <? 10 then "0" else "") +:+ format_int (Z.abs k).

(** How numpy writes a float64 ([str], as [astype(str)] does): the shortest
    decimal that reads back as the same float. *)
Definition float_str (v : float) : string :=
  match Prim2SF v with
  | S754_nan => "nan"
  | S754_infinity sign => if sign then "-inf" else "inf"
  | S754_zero sign => if sign then "-0.0" else "0.0"
  | S754_finite sign m e =>
      let k := decimal_exponent (Zpos m) e in
      let '(q, s) := shortest_from 16 (Zpos m) e k 1 in
      let '(q, s) := strip_zeros 17 q s in
      let ds := format_int q in
      (if sign then "-" else "") +:+ place_point ds (s + Z.of_nat (String.length ds) - 1)
  end.

(** ** Text as floats *)











(** ** The export and its reader *)

(** A value cell: empty for a missing value ([na_rep]), the float's text
    otherwise. *)
Definition format_value (v : float) : string :=
  if PrimFloat.is_nan v then EmptyString else float_str v.




(** The text of the cell of row [r] in a column. *)
Definition cell_text (r : Row) (column : string) : string :=
  if decide (column = "series_id") then series_id r
  else if decide (column = "date") then format_date (date r)
  else if decide (column = "year") then format_int (year r)
  else if decide (column = "value") then format_value (value r)
  else if decide (column = "series_name") then series_name r
  else EmptyString.

(** The columns of [data]: those of the file, in the order of the file, and
    [series_name], which line 32 adds at the end. *)
Definition columns (file_columns : list string) : list string :=
  (file_columns ++ ["series_name"])%list.

Definition format_row (file_columns : list string) (r : Row) : list string :=
  cell_text r <$> columns file_columns.

(** [df.to_csv(index=False)]: the header, then one record per row. *)
Definition to_csv (file_columns : list string) (df : list Row) : string :=
  csv_text (columns file_columns :: (format_row file_columns <$> df)).





(** ** The script as a whole *)

(** What each view of the page is given. *)
Record Dashboard := mkDashboard {
  plot_unemployment : list Row;            (* line 121 *)
  plot_nonfarm : list Row;                 (* line 146 *)
  plot_hours_earnings : list MergedRow;    (* lines 194-200 *)
  pie_values : float * float;              (* lines 279-280 *)
  summary_table : list (string * Describe);(* line 322 *)
  data_table : list Row;                   (* line 327 *)
  download : string                        (* line 332 *)
}.

(** One run of the script: [file_columns] and [raw] are the columns and the
    rows [load_data] returned, [selected_series_names] and [selected_years]
    what the two sidebar widgets returned. *)
Definition run (file_columns : list string) (raw : list Observation)
    (selected_series_names : list string) (selected_years : Z * Z) : Dashboard :=
  let data := annotate raw in
  let filtered := filtered_data data selected_series_names selected_years in
  {| plot_unemployment := unemployment_data filtered;
     plot_nonfarm := nonfarm_data filtered;
     plot_hours_earnings := merged_data data;
     pie_values := (employment_total data selected_years,
                    unemployment_total data selected_years);
     summary_table := summary filtered;
     data_table := filtered;
     download := to_csv file_columns filtered |}.

(** ** Sample inputs *)

(** The six names of lines 43-48, the initial selection when the dataset
    holds all six series. *)
Definition default_options : list string :=
  [ "Civilian Employment"; "Civilian Unemployment"; "Unemployment Rate";
    "Total Nonfarm Employment"; "Average Weekly Hours of All Employees";
    "Average Hourly Earnings of All Employees" ].

(** January of two years, one observation of each series. *)
Definition two_years : list Observation :=
  [ mkObs "LNS12000000" (mkDate 2019 1 1) 2019 156500%float;
    mkObs "LNS13000000" (mkDate 2019 1 1) 2019 6500%float;
    mkObs "LNS14000000" (mkDate 2019 1 1) 2019 4%float;
    mkObs "CES0000000001" (mkDate 2019 1 1) 2019 150000%float;
    mkObs "CES0500000002" (mkDate 2019 1 1) 2019 34.5%float;
    mkObs "CES0500000003" (mkDate 2019 1 1) 2019 27.5%float;
    mkObs "LNS12000000" (mkDate 2020 1 1) 2020 158500%float;
    mkObs "LNS13000000" (mkDate 2020 1 1) 2020 5750%float;
    mkObs "LNS14000000" (mkDate 2020 1 1) 2020 3.5%float;
    mkObs "CES0000000001" (mkDate 2020 1 1) 2020 152000%float;
    mkObs "CES0500000002" (mkDate 2020 1 1) 2020 34.25%float;
    mkObs "CES0500000003" (mkDate 2020 1 1) 2020 28.5%float ].

(** An observation of a series the catalog does not list. *)
Definition uncatalogued : Observation :=
  mkObs "PRS85006092" (mkDate 2020 1 1) 2020 2.5%float.


#[local] Set Warnings "-inexact-float".





(** A column order of the file, other than the order of the data model. *)
Definition sample_columns : list string := ["series_id"; "year"; "value"; "date"].




(** ** Sidebar widgets (lines 50-65) *)

(** Line 50: the default names that are among the options. *)
Definition present_default_options (data : list Row) : list string :=
  filter (λ opt, opt ∈ available_options data) default_options.

(** [Series.min()] and [Series.max()] of an integer column: missing on an
    empty column. *)
Definition column_min (ys : list Z) : option Z :=
  match ys with
  | [] => None
  | y :: ys' => Some (foldl Z.min y ys')
  end.

Definition column_max (ys : list Z) : option Z :=
  match ys with
  | [] => None
  | y :: ys' => Some (foldl Z.max y ys')
  end.

(** The arguments the year slider is created with (lines 60-65). *)
Record Slider := mkSlider {
  min_value : Z;
  max_value : Z;
  initial_value : Z * Z
}.

(** [int(...)] of a missing minimum or maximum raises; [None] stands for
    that error. *)
Definition year_slider (data : list Row) : option Slider :=
  lo ← column_min (year <$> data);
  hi ← column_max (year <$> data);
  Some (mkSlider lo hi (2019, hi)).

(** Strict order of the group keys. *)
Definition key_lt (a b : string) : Prop := String.ltb a b = true.

(** * Verification *)

(** ** The catalog *)

Section Dict.

Lemma dict_get_Some (d : list (string * string)) k v :
  dict_get d k = Some v → (k, v) ∈ d.
Proof.
  induction d as [|[k' v'] d IH]; simpl; [done|].
  case_decide as Hk.
  - intros [= ->]. subst k'. apply elem_of_cons. by left.
  - intros Hget. apply elem_of_cons. right. by apply IH.
Qed.

Lemma dict_get_None (d : list (string * string)) k :
  dict_get d k = None ↔ k ∉ d.*1.
Proof.
  induction d as [|[k' v'] d IH]; simpl.
  - split; [intros _; apply not_elem_of_nil | done].
  - rewrite not_elem_of_cons. case_decide as Hk; subst; simpl.
    + split; [done | by intros [? _]].
    + rewrite IH. split; [intros Hd; split; [congruence|done] | by intros [_ ?]].
Qed.

Lemma dict_get_elem_of (d : list (string * string)) k v :
  NoDup d.*1 → (k, v) ∈ d → dict_get d k = Some v.
Proof.
  induction d as [|[k' v'] d IH]; simpl.
  - intros _ Hin. by apply elem_of_nil in Hin.
  - rewrite NoDup_cons. intros [Hk' Hnd] Hin.
    apply elem_of_cons in Hin as [[= -> ->] | Hin].
    + by rewrite decide_True.
    + rewrite decide_False; [by apply IH|].
      intros ->. apply Hk'. apply list_elem_of_fmap. by exists (k, v).
Qed.

End Dict.

Lemma series_names_NoDup : NoDup series_names.*1.
Proof. apply (bool_decide_unpack _). by vm_compute. Qed.

(** A catalog entry is exactly what the annotation looks up. *)
Lemma map_series_names_Some sid name :
  map_series_names sid = Some name ↔ (sid, name) ∈ series_names.
Proof.
  split; [apply dict_get_Some | apply dict_get_elem_of, series_names_NoDup].
Qed.

Lemma unknown_not_a_catalog_name : "Unknown Series" ∉ series_names.*2.
Proof. apply (bool_decide_unpack _). by vm_compute. Qed.

(** The ids selected by a set of names: those whose catalog name is chosen. *)
Lemma elem_of_selected_series_ids sid names :
  sid ∈ selected_series_ids names ↔
  ∃ name, map_series_names sid = Some name ∧ name ∈ names.
Proof.
  unfold selected_series_ids. rewrite list_elem_of_fmap. split.
  - intros [[sid' name] [-> Hin]]. apply list_elem_of_filter in Hin as [Hsel Hin].
    exists name. by rewrite map_series_names_Some.
  - intros (name & Hget & Hsel). exists (sid, name). split; [done|].
    apply list_elem_of_filter. by rewrite <- map_series_names_Some.
Qed.

Lemma selected_series_ids_nil : selected_series_ids [] = [].
Proof.
  unfold selected_series_ids.
  rewrite (list_filter_iff _ (λ _, False)); [|intros item; by rewrite elem_of_nil].
  by induction series_names.
Qed.

(** ** Options of the multiselect *)

Lemma elem_of_unique_from seen l x :
  x ∈ unique_from seen l ↔ x ∈ l ∧ x ∉ seen.
Proof.
  revert seen. induction l as [|y l IH]; intros seen; simpl.
  - rewrite elem_of_nil. tauto.
  - case_decide as Hy.
    + rewrite IH, elem_of_cons. split; [tauto|].
      intros [[-> | Hx] Hseen]; [contradiction | tauto].
    + rewrite !elem_of_cons, IH, not_elem_of_cons.
      destruct (decide (x = y)) as [-> | Hne]; tauto.
Qed.

Lemma elem_of_unique l x : x ∈ unique l ↔ x ∈ l.
Proof.
  unfold unique. rewrite elem_of_unique_from. pose proof (not_elem_of_nil x).
  tauto.
Qed.

(** ** The filter engine *)

Lemma keep_row_selected names yrs r :
  keep_row (selected_series_ids names) yrs r ↔ selected names yrs r.
Proof. unfold keep_row, selected, between. by rewrite elem_of_selected_series_ids. Qed.

Lemma elem_of_filtered_data data names yrs r :
  r ∈ filtered_data data names yrs ↔ r ∈ data ∧ selected names yrs r.
Proof.
  unfold filtered_data. rewrite list_elem_of_filter, keep_row_selected. tauto.
Qed.

(** A sub-table whose rows all pass a mask is a sub-table of the masked table. *)
Lemma sublist_filter_max {A} (P : A → Prop) `{!∀ x, Decision (P x)} (l k : list A) :
  l `sublist_of` k → Forall P l → l `sublist_of` filter P k.
Proof.
  induction 1 as [|x l k Hsub IH|x l k Hsub IH]; intros Hall.
  - constructor.
  - apply Forall_cons in Hall as [Hx Hall].
    rewrite filter_cons_True by done. constructor. by apply IH.
  - rewrite filter_cons. case_decide; [constructor|]; by apply IH.
Qed.

(** C1: the filtered table holds exactly the rows of the dataset whose series
    id has a catalog name among the selected names and whose year lies in the
    inclusive range; it is a sub-table of the dataset (row order and
    repetitions kept) and every sub-table of the dataset made of such rows is
    a sub-table of it. *)
Theorem filtered_data_exact (data : list Row) (names : list string) (yrs : Z * Z) :
  (∀ r, r ∈ filtered_data data names yrs ↔
        r ∈ data ∧
        (∃ name, map_series_names (series_id r) = Some name ∧ name ∈ names) ∧
        yrs.1 ≤ year r ∧ year r ≤ yrs.2) ∧
  filtered_data data names yrs `sublist_of` data ∧
  (∀ sub, sub `sublist_of` data →
          (∀ r, r ∈ sub →
                (∃ name, map_series_names (series_id r) = Some name ∧ name ∈ names) ∧
                yrs.1 ≤ year r ∧ year r ≤ yrs.2) →
          sub `sublist_of` filtered_data data names yrs).
Proof.
  split; [|split].
  - intros r. apply elem_of_filtered_data.
  - apply sublist_filter.
  - intros sub Hsub Hall. apply sublist_filter_max; [done|].
    apply Forall_forall. intros r Hr. apply keep_row_selected. by apply Hall.
Qed.

(** C8: filtering the filtered table again with the same names and years
    gives the filtered table back. *)
Theorem filtered_data_idempotent (data : list Row) (names : list string) (yrs : Z * Z) :
  filtered_data (filtered_data data names yrs) names yrs = filtered_data data names yrs.
Proof.
  unfold filtered_data. rewrite list_filter_filter.
  apply list_filter_iff. intros r. tauto.
Qed.

Lemma filtered_data_no_names data yrs : filtered_data data [] yrs = [].
Proof.
  unfold filtered_data. rewrite selected_series_ids_nil.
  induction data as [|r data IH]; [done|].
  rewrite filter_cons_False; [done|]. intros [Hin _]. by apply elem_of_nil in Hin.
Qed.

(** ** Annotation *)

Lemma displayName_Some sid name :
  map_series_names sid = Some name → displayName sid = name.
Proof. unfold displayName. by intros ->. Qed.

Lemma displayName_None sid :
  map_series_names sid = None → displayName sid = "Unknown Series".
Proof. unfold displayName. by intros ->. Qed.

(** C4: an id that is no key of the catalog is given the name
    "Unknown Series", and the lookup answers for every id: with the sentinel
    or with the name the catalog holds for that id. *)
Theorem displayName_unmapped (sid : string) :
  sid ∉ series_names.*1 →
  displayName sid = "Unknown Series" ∧
  ∀ other : string, ∃ name : string,
    displayName other = name ∧
    (name = "Unknown Series" ∨ (other, name) ∈ series_names).
Proof.
  intros Hsid. split.
  - apply displayName_None. by apply dict_get_None.
  - intros other. exists (displayName other). split; [done|].
    destruct (map_series_names other) as [name|] eqn:Hget.
    + right. rewrite (displayName_Some _ _ Hget). by apply map_series_names_Some.
    + left. by apply displayName_None.
Qed.

Lemma displayName_unmapped_witness :
  ("PRS85006092" ∉ series_names.*1) ∧ displayName "PRS85006092" = "Unknown Series".
Proof.
  assert (Hnot : "PRS85006092" ∉ series_names.*1).
  { apply (bool_decide_unpack _). by vm_compute. }
  split; [exact Hnot|]. exact (proj1 (displayName_unmapped "PRS85006092" Hnot)).
Defined.

(** C10: the name "Unknown Series" selects no series id, so a selection made
    of that name alone leaves no row, whatever the dataset and the years;
    yet a dataset with a row of an uncatalogued id offers that name among the
    options of the multiselect, and that row is not in the filtered table. *)
Theorem unknown_series_unreachable (raw : list Observation) (yrs : Z * Z) :
  selected_series_ids ["Unknown Series"] = [] ∧
  (∀ data : list Row, filtered_data data ["Unknown Series"] yrs = []) ∧
  filtered_data (annotate raw) ["Unknown Series"] yrs = [] ∧
  ∀ o, o ∈ raw → o_series_id o ∉ series_names.*1 →
       series_name (annotate_row o) = "Unknown Series" ∧
       "Unknown Series" ∈ available_options (annotate raw) ∧
       annotate_row o ∉ filtered_data (annotate raw) ["Unknown Series"] yrs.
Proof.
  assert (Hids : selected_series_ids ["Unknown Series"] = []) by by vm_compute.
  assert (Hnil : ∀ data, filtered_data data ["Unknown Series"] yrs = []).
  { intros data. unfold filtered_data. rewrite Hids.
    induction data as [|r data IH]; [done|].
    rewrite filter_cons_False; [done|]. intros [Hin _]. by apply elem_of_nil in Hin. }
  split; [done|]. split; [done|]. split; [apply Hnil|].
  intros o Ho Hid.
  assert (Hname : series_name (annotate_row o) = "Unknown Series").
  { simpl. apply displayName_None. by apply dict_get_None. }
  split; [done|]. split.
  - unfold available_options. apply elem_of_unique.
    apply list_elem_of_fmap. exists (annotate_row o). split; [done|].
    unfold annotate. apply list_elem_of_fmap. by exists o.
  - rewrite Hnil. apply not_elem_of_nil.
Qed.

(** ** The pie chart totals *)

Lemma filter_ext_elem {A} (P Q : A → Prop) `{!∀ x, Decision (P x)}
    `{!∀ x, Decision (Q x)} (l : list A) :
  (∀ x, x ∈ l → P x ↔ Q x) → filter P l = filter Q l.
Proof.
  induction l as [|x l IH]; intros Hext; [done|].
  rewrite !filter_cons.
  rewrite IH by (intros y Hy; apply Hext, elem_of_cons; by right).
  apply decide_ext, Hext, elem_of_cons. by left.
Qed.

(** Selecting one catalog name keeps the rows of its id within the years. *)
Lemma filtered_data_one_name data sid name yrs :
  selected_series_ids [name] = [sid] →
  filtered_data data [name] yrs = year_slice sid yrs data.
Proof.
  intros Hids. unfold filtered_data, year_slice. rewrite Hids.
  apply list_filter_iff. intros r. unfold keep_row.
  by rewrite list_elem_of_singleton.
Qed.

Lemma sum_nil : sum [] = 0%float.
Proof. reflexivity. Qed.

Lemma totals_of_filtered_data data yrs :
  employment_total data yrs =
    sum (value <$> filtered_data data ["Civilian Employment"] yrs) ∧
  unemployment_total data yrs =
    sum (value <$> filtered_data data ["Civilian Unemployment"] yrs).
Proof.
  unfold employment_total, unemployment_total, filtered_employment,
    filtered_unemployment.
  rewrite (filtered_data_one_name data "LNS12000000") by by vm_compute.
  rewrite (filtered_data_one_name data "LNS13000000") by by vm_compute.
  done.
Qed.


(** ** Summation *)

Lemma pairwise_sum_small fuel a :
  (length a ≤ 128)%nat → pairwise_sum fuel a = block_sum a.
Proof.
  intros Hlen. destruct fuel; simpl;
    by rewrite (proj2 (Nat.leb_le _ _) Hlen).
Qed.

Lemma pairwise_sum_split fuel a :
  (128 < length a)%nat →
  pairwise_sum (S fuel) a =
  (pairwise_sum fuel (take (length a / 2 - (length a / 2) mod 8) a) +
   pairwise_sum fuel (drop (length a / 2 - (length a / 2) mod 8) a))%float.
Proof.
  intros Hlen. simpl.
  by rewrite (proj2 (Nat.leb_gt _ _) Hlen).
Qed.

Lemma split_point n :
  (128 < n)%nat →
  (0 < n / 2 - (n / 2) mod 8 ∧ n / 2 - (n / 2) mod 8 < n)%nat.
Proof.
  intros Hn.
  pose proof (Nat.mod_upper_bound (n / 2) 8 ltac:(lia)).
  pose proof (Nat.Div0.div_lt_upper_bound n 2 n ltac:(lia)).
  assert (64 ≤ n / 2)%nat by (apply Nat.div_le_lower_bound; lia).
  lia.
Qed.

(** The splitting ends before the fuel does: any fuel that is at least the
    length of the array gives the same sum. *)
Lemma pairwise_sum_fuel fuel a :
  (length a ≤ fuel)%nat → pairwise_sum fuel a = pairwise_sum (length a) a.
Proof.
  revert a. induction (lt_wf fuel) as [fuel _ IH]. intros a Hfuel.
  destruct (decide (length a ≤ 128)%nat) as [Hsmall | Hlarge].
  - by rewrite !pairwise_sum_small.
  - assert (Hlen : (128 < length a)%nat) by lia.
    destruct fuel as [|fuel]; [lia|].
    destruct (length a) as [|n] eqn:Hn; [lia|].
    rewrite !pairwise_sum_split by lia. rewrite Hn.
    pose proof (split_point (S n) Hlen) as [Hlo Hhi].
    set (n2 := (S n / 2 - (S n / 2) mod 8)%nat) in *.
    assert (Htake : length (take n2 a) = n2) by (rewrite length_take; lia).
    assert (Hdrop : length (drop n2 a) = (S n - n2)%nat)
      by (rewrite length_drop; lia).
    rewrite (IH fuel ltac:(lia) (take n2 a)) by lia.
    rewrite (IH fuel ltac:(lia) (drop n2 a)) by lia.
    assert (Hrec : ∀ b, (length b ≤ n)%nat →
              pairwise_sum n b = pairwise_sum (length b) b).
    { intros b Hb. destruct (decide (n = fuel)) as [-> | Hne].
      - apply (IH fuel); lia.
      - apply (IH n); lia. }
    by rewrite !Hrec by lia.
Qed.







(** ** Summary statistics *)

Lemma insert_key_perm k l : insert_key k l ≡ₚ k :: l.
Proof.
  induction l as [|k' l IH]; simpl; [done|].
  destruct (String.leb k k'); [done|].
  rewrite IH. apply Permutation_swap.
Qed.

Lemma foldr_insert_key_perm l : foldr insert_key [] l ≡ₚ l.
Proof.
  induction l as [|k l IH]; simpl; [done|].
  by rewrite insert_key_perm, IH.
Qed.

Lemma unique_from_NoDup seen l : NoDup (unique_from seen l).
Proof.
  revert seen. induction l as [|x l IH]; intros seen; simpl.
  - constructor.
  - case_decide; [apply IH|]. constructor; [|apply IH].
    rewrite elem_of_unique_from, elem_of_cons. tauto.
Qed.

Lemma elem_of_group_keys keys g : g ∈ group_keys keys ↔ g ∈ keys.
Proof. unfold group_keys. by rewrite foldr_insert_key_perm, elem_of_unique. Qed.

Lemma group_keys_NoDup keys : NoDup (group_keys keys).
Proof.
  unfold group_keys. rewrite foldr_insert_key_perm. apply unique_from_NoDup.
Qed.

Lemma summary_keys fv : (summary fv).*1 = group_keys (series_name <$> fv).
Proof.
  unfold summary. rewrite <- list_fmap_compose.
  by rewrite <- (list_fmap_id (group_keys _)) at 2.
Qed.

Lemma elem_of_summary fv g d :
  (g, d) ∈ summary fv ↔
  g ∈ series_name <$> fv ∧ d = describe (value <$> group_rows g fv).
Proof.
  unfold summary. rewrite list_elem_of_fmap. split.
  - intros (g' & Heq & Hg). injection Heq as -> ->.
    split; [by apply elem_of_group_keys|done].
  - intros [Hg ->]. exists g. split; [done|by apply elem_of_group_keys].
Qed.

Lemma summary_nil : summary [] = [].
Proof. reflexivity. Qed.

Lemma describe_single_five :
  describe [5%float] =
  mkDescribe 1 5%float PrimFloat.nan 5%float 5%float 5%float 5%float 5%float.
Proof. by vm_compute. Qed.






(** C6: with no name selected the filtered table is empty, whatever the
    dataset and the years, and the summary of that table has no group; both
    are ordinary values of the run, which hands the page an empty data table
    and an empty summary table. *)
Theorem empty_selection (file_columns : list string) (raw : list Observation)
    (data : list Row) (yrs : Z * Z) :
  filtered_data data [] yrs = [] ∧
  summary (filtered_data data [] yrs) = [] ∧
  data_table (run file_columns raw [] yrs) = [] ∧
  summary_table (run file_columns raw [] yrs) = [].
Proof.
  unfold run; simpl. by rewrite !filtered_data_no_names.
Qed.

(** ** The comparison table *)

Section Merge.

Implicit Types left right : list (Date * float).

Lemma merge_on_date_cons l left right :
  merge_on_date (l :: left) right =
  (((λ r, mkMerged l.1 l.2 r.2) <$> matches l.1 right) ++ merge_on_date left right)%list.
Proof. reflexivity. Qed.

Lemma elem_of_merge_on_date left right m :
  m ∈ merge_on_date left right ↔
  ∃ l r, l ∈ left ∧ r ∈ right ∧ l.1 = r.1 ∧ m = mkMerged l.1 l.2 r.2.
Proof.
  unfold merge_on_date. rewrite list_elem_of_bind. split.
  - intros (l & Hm & Hl). apply list_elem_of_fmap in Hm as (r & -> & Hr).
    apply list_elem_of_filter in Hr as [Heq Hr]. by exists l, r.
  - intros (l & r & Hl & Hr & Heq & ->). exists l. split; [|done].
    apply list_elem_of_fmap. exists r. split; [done|].
    by apply list_elem_of_filter.
Qed.

Lemma length_merge_on_date_cons l left right :
  length (merge_on_date (l :: left) right) =
  (length (matches l.1 right) + length (merge_on_date left right))%nat.
Proof. by rewrite merge_on_date_cons, length_app, length_fmap. Qed.

Lemma length_merge_on_date_cons_r left r right :
  length (merge_on_date left (r :: right)) =
  (length (matches r.1 left) + length (merge_on_date left right))%nat.
Proof.
  induction left as [|l left IH]; [done|].
  rewrite !length_merge_on_date_cons, IH. unfold matches.
  rewrite !filter_cons. destruct (decide (r.1 = l.1)) as [Heq|Hne].
  - rewrite decide_True by done. simpl. lia.
  - rewrite decide_False by (intros Heq; by apply Hne). lia.
Qed.

(** The number of joined rows does not depend on which side is the left one. *)
Lemma length_merge_on_date_comm left right :
  length (merge_on_date left right) = length (merge_on_date right left).
Proof.
  induction left as [|l left IH].
  - induction right as [|r right IHr]; [done|].
    by rewrite length_merge_on_date_cons, <- IHr.
  - by rewrite length_merge_on_date_cons, length_merge_on_date_cons_r, IH.
Qed.

Lemma length_merge_on_date_product left right :
  (length (merge_on_date left right) ≤ length left * length right)%nat.
Proof.
  induction left as [|l left IH]; [done|].
  rewrite length_merge_on_date_cons. simpl.
  pose proof (length_filter (λ r, r.1 = l.1) right). unfold matches. lia.
Qed.

Lemma length_matches_NoDup d right :
  NoDup right.*1 → (length (matches d right) ≤ 1)%nat.
Proof.
  unfold matches. induction right as [|r right IH]; simpl; [lia|].
  rewrite NoDup_cons. intros [Hr Hnd]. rewrite filter_cons.
  case_decide as Hd; [|by apply IH]. subst d.
  assert (Hnil : filter (λ r' : Date * float, r'.1 = r.1) right = []).
  { apply elem_of_nil_inv. intros r' Hr'.
    apply list_elem_of_filter in Hr' as [Heq Hr'].
    apply Hr. rewrite <- Heq. apply list_elem_of_fmap. by exists r'. }
  rewrite Hnil. simpl. lia.
Qed.

Lemma length_merge_on_date_unique_r left right :
  NoDup right.*1 → (length (merge_on_date left right) ≤ length left)%nat.
Proof.
  intros Hnd. induction left as [|l left IH]; [done|].
  rewrite length_merge_on_date_cons. simpl.
  pose proof (length_matches_NoDup l.1 right Hnd). lia.
Qed.

Lemma length_merge_on_date_unique left right :
  NoDup left.*1 → NoDup right.*1 →
  (length (merge_on_date left right) ≤ Nat.min (length left) (length right))%nat.
Proof.
  intros Hl Hr. apply Nat.min_glb.
  - by apply length_merge_on_date_unique_r.
  - rewrite length_merge_on_date_comm. by apply length_merge_on_date_unique_r.
Qed.

End Merge.

Lemma date_value_dates df : (date_value df).*1 = date <$> df.
Proof. unfold date_value. by rewrite <- list_fmap_compose. Qed.

(** C3, as stated, fails: with a date that occurs twice in each slice the
    join has four rows, more than the two rows of either slice. *)
Lemma merged_data_count_counterexample :
  length (hours_data repeated_month) = 2%nat ∧
  length (earnings_data repeated_month) = 2%nat ∧
  length (merged_data repeated_month) = 4%nat ∧
  ¬ (length (merged_data repeated_month)
       ≤ Nat.min (length (hours_data repeated_month))
                 (length (earnings_data repeated_month)))%nat.
Proof.
  assert (Hh : length (hours_data repeated_month) = 2%nat) by by vm_compute.
  assert (He : length (earnings_data repeated_month) = 2%nat) by by vm_compute.
  assert (Hm : length (merged_data repeated_month) = 4%nat) by by vm_compute.
  rewrite Hh, He, Hm. repeat split. simpl. lia.
Qed.

(** C3, amended: every row of the comparison table carries a date that occurs
    in the weekly-hours slice and in the hourly-earnings slice, with the two
    values of rows of these slices at that date; the table has one row per
    pair of rows with equal dates, hence at most |hours| * |earnings| rows,
    and at most min(|hours|, |earnings|) rows when no date occurs twice
    within a slice. *)
Theorem merged_data_inner_join (data : list Row) :
  (∀ m, m ∈ merged_data data ↔
        ∃ h e, h ∈ hours_data data ∧ e ∈ earnings_data data ∧
               date h = date e ∧
               m = mkMerged (date h) (value h) (value e)) ∧
  (∀ m, m ∈ merged_data data →
        m_date m ∈ date <$> hours_data data ∧
        m_date m ∈ date <$> earnings_data data) ∧
  (length (merged_data data)
     ≤ length (hours_data data) * length (earnings_data data))%nat ∧
  (NoDup (date <$> hours_data data) → NoDup (date <$> earnings_data data) →
   (length (merged_data data)
      ≤ Nat.min (length (hours_data data)) (length (earnings_data data)))%nat).
Proof.
  assert (Hmem : ∀ m, m ∈ merged_data data ↔
        ∃ h e, h ∈ hours_data data ∧ e ∈ earnings_data data ∧
               date h = date e ∧
               m = mkMerged (date h) (value h) (value e)).
  { intros m. unfold merged_data. rewrite elem_of_merge_on_date. split.
    - intros (l & r & Hl & Hr & Heq & ->).
      apply list_elem_of_fmap in Hl as (h & -> & Hh).
      apply list_elem_of_fmap in Hr as (e & -> & He).
      by exists h, e.
    - intros (h & e & Hh & He & Heq & ->).
      exists (date h, value h), (date e, value e).
      split; [apply list_elem_of_fmap; by exists h|].
      split; [apply list_elem_of_fmap; by exists e|]. done. }
  split; [exact Hmem|]. split; [|split].
  - intros m Hm. apply Hmem in Hm as (h & e & Hh & He & Heq & ->). simpl. split.
    + apply list_elem_of_fmap. by exists h.
    + rewrite Heq. apply list_elem_of_fmap. by exists e.
  - unfold merged_data.
    pose proof (length_merge_on_date_product (date_value (hours_data data))
                  (date_value (earnings_data data))) as Hlen.
    unfold date_value in Hlen at 3 4. by rewrite !length_fmap in Hlen.
  - intros Hh He. unfold merged_data.
    pose proof (length_merge_on_date_unique (date_value (hours_data data))
                  (date_value (earnings_data data))) as Hlen.
    rewrite !date_value_dates in Hlen. specialize (Hlen Hh He).
    unfold date_value in Hlen at 3 4. by rewrite !length_fmap in Hlen.
Qed.

(** ** Which table each view is given *)

Lemma series_slice_filtered_data sid name data names yrs :
  map_series_names sid = Some name → name ∈ names →
  (∀ r, r ∈ data → series_id r = sid → yrs.1 ≤ year r ∧ year r ≤ yrs.2) →
  series_slice sid (filtered_data data names yrs) = series_slice sid data.
Proof.
  intros Hget Hname Hyrs. unfold series_slice, filtered_data.
  rewrite list_filter_filter. apply filter_ext_elem. intros r Hr. split.
  - by intros [? _].
  - intros Hsid. split; [done|]. apply keep_row_selected. split.
    + exists name. by rewrite Hsid.
    + by apply Hyrs.
Qed.

(** C2, as stated, fails: with the six default names selected and the years
    2020 to 2020, the filtered table holds one weekly-hours and one
    hourly-earnings row, yet the comparison table handed to the plot has the
    two rows of 2019 and 2020; and with no name selected the filtered table
    is empty, yet the employment total of the pie is not zero. *)
Lemma views_not_all_filtered :
  length (merged_data
            (filtered_data (annotate two_years) default_options (2020, 2020)))
    = 1%nat ∧
  length (plot_hours_earnings (run sample_columns two_years default_options (2020, 2020)))
    = 2%nat ∧
  filtered_data (annotate two_years) [] (2020, 2020) = [] ∧
  (pie_values (run sample_columns two_years [] (2020, 2020))).1 = 158500%float.
Proof. by vm_compute. Qed.

(** C2, amended: the filtered table is what the unemployment-rate plot, the
    nonfarm plot, the summary statistics, the data table and the export are
    computed from; the pie totals are computed from the whole dataset
    restricted to the selected years, whatever names are selected; and the
    comparison table is the one the filtered table would give whenever both
    of its series are selected and the selected years cover the rows of
    these two series. *)
Theorem views_inputs (file_columns : list string) (raw : list Observation)
    (names : list string) (yrs : Z * Z) :
  let page := run file_columns raw names yrs in
  let filtered := filtered_data (annotate raw) names yrs in
  plot_unemployment page = series_slice "LNS14000000" filtered ∧
  plot_nonfarm page = series_slice "CES0000000001" filtered ∧
  summary_table page = summary filtered ∧
  data_table page = filtered ∧
  download page = to_csv file_columns filtered ∧
  (∀ names', pie_values (run file_columns raw names' yrs) = pie_values page) ∧
  pie_values page =
    (sum (value <$> filtered_data (annotate raw) ["Civilian Employment"] yrs),
     sum (value <$> filtered_data (annotate raw) ["Civilian Unemployment"] yrs)) ∧
  ("Average Weekly Hours of All Employees" ∈ names →
   "Average Hourly Earnings of All Employees" ∈ names →
   (∀ r, r ∈ annotate raw →
         series_id r = "CES0500000002" ∨ series_id r = "CES0500000003" →
         yrs.1 ≤ year r ∧ year r ≤ yrs.2) →
   plot_hours_earnings page = merged_data filtered).
Proof.
  intros page filtered. subst page filtered. simpl.
  do 6 (split; [done|]). split.
  - pose proof (totals_of_filtered_data (annotate raw) yrs) as [-> ->]. done.
  - intros Hhours Hearn Hyrs. unfold merged_data, hours_data, earnings_data.
    rewrite (series_slice_filtered_data "CES0500000002"
               "Average Weekly Hours of All Employees"); [|done..|auto].
    rewrite (series_slice_filtered_data "CES0500000003"
               "Average Hourly Earnings of All Employees"); [|done..|auto].
    done.
Qed.

Lemma views_inputs_witness :
  plot_hours_earnings (run sample_columns two_years default_options (2019, 2020)) =
  merged_data (filtered_data (annotate two_years) default_options (2019, 2020)).
Proof.
  apply (views_inputs sample_columns two_years default_options (2019, 2020)).
  - apply (bool_decide_unpack _). by vm_compute.
  - apply (bool_decide_unpack _). by vm_compute.
  - intros r Hr _. revert r Hr. apply Forall_forall.
    apply (bool_decide_unpack _). by vm_compute.
Defined.

(** ** The reader undoes the writer *)

Section Tokenizer.

#[local] Arguments String.append !_ _ / : simpl nomatch.
#[local] Open Scope list_scope.

Implicit Types (s rest f : string) (fs : list string) (ls : list (list string)).


















End Tokenizer.

(** ** Cells read back *)







(** ** The export *)

















(** ** The theorems at sample inputs *)



Lemma merged_data_inner_join_witness :
  (length (merged_data (annotate two_years))
     ≤ Nat.min (length (hours_data (annotate two_years)))
               (length (earnings_data (annotate two_years))))%nat.
Proof.
  apply (merged_data_inner_join (annotate two_years));
    apply (bool_decide_unpack _); by vm_compute.
Defined.

Lemma unknown_series_unreachable_witness :
  "Unknown Series" ∈ available_options (annotate (uncatalogued :: two_years)) ∧
  filtered_data (annotate (uncatalogued :: two_years)) ["Unknown Series"] (2019, 2020)
    = [].
Proof.
  pose proof (unknown_series_unreachable (uncatalogued :: two_years) (2019, 2020))
    as (_ & _ & Hnil & Hrow).
  split; [|exact Hnil].
  apply (Hrow uncatalogued).
  - apply elem_of_cons. by left.
  - apply (bool_decide_unpack _). by vm_compute.
Defined.

(** * Further properties of the script *)

(** ** Selections *)

Lemma selected_series_ids_mono names names' :
  names' ⊆ names → selected_series_ids names' ⊆ selected_series_ids names.
Proof.
  intros Hsub sid. rewrite !elem_of_selected_series_ids.
  intros (name & Hget & Hin). exists name. split; [done|by apply Hsub].
Qed.

(** X1: filtering the filtered table again with a selection of fewer names
    and a narrower year range gives what filtering the dataset with the
    second selection gives. *)
Theorem filtered_data_narrow (data : list Row) (names names' : list string)
    (yrs yrs' : Z * Z) :
  names' ⊆ names → yrs.1 ≤ yrs'.1 → yrs'.2 ≤ yrs.2 →
  filtered_data (filtered_data data names yrs) names' yrs' =
  filtered_data data names' yrs'.
Proof.
  intros Hnames Hlo Hhi. unfold filtered_data. rewrite list_filter_filter.
  apply list_filter_iff. intros r. unfold keep_row, between. split.
  - tauto.
  - intros [Hid [Hl Hh]]. repeat split; try done; try lia.
    by apply (selected_series_ids_mono names names').
Qed.

Lemma filtered_data_narrow_witness :
  filtered_data (filtered_data (annotate two_years) default_options (2019, 2020))
                ["Unemployment Rate"] (2020, 2020) =
  filtered_data (annotate two_years) ["Unemployment Rate"] (2020, 2020).
Proof.
  apply filtered_data_narrow; simpl; [|lia..].
  apply (bool_decide_unpack _). by vm_compute.
Defined.

Lemma selected_series_ids_ext names names' :
  (∀ n, n ∈ names ↔ n ∈ names') →
  selected_series_ids names = selected_series_ids names'.
Proof.
  intros Hsame. unfold selected_series_ids. f_equal.
  apply list_filter_iff. intros item. apply Hsame.
Qed.

(** X2: the ids a selection stands for are distinct ids of the catalog, in
    catalog order, and together with the filtered table they depend only on
    which names are selected, not on the order or the repetitions in which
    the multiselect lists them. *)
Theorem selection_as_a_set (names names' : list string) :
  selected_series_ids names `sublist_of` series_names.*1 ∧
  NoDup (selected_series_ids names) ∧
  ((∀ n, n ∈ names ↔ n ∈ names') →
   selected_series_ids names = selected_series_ids names' ∧
   ∀ data yrs, filtered_data data names yrs = filtered_data data names' yrs).
Proof.
  assert (Hsub : selected_series_ids names `sublist_of` series_names.*1).
  { unfold selected_series_ids. apply fmap_sublist, sublist_filter. }
  split; [done|]. split.
  - eapply sublist_NoDup; [apply series_names_NoDup|done].
  - intros Hsame. pose proof (selected_series_ids_ext _ _ Hsame) as Hids.
    split; [done|]. intros data yrs. unfold filtered_data. by rewrite Hids.
Qed.

Lemma selection_as_a_set_witness :
  filtered_data (annotate two_years)
    ["Unemployment Rate"; "Civilian Employment"; "Unemployment Rate"] (2019, 2020) =
  filtered_data (annotate two_years)
    ["Civilian Employment"; "Unemployment Rate"] (2019, 2020).
Proof.
  apply (selection_as_a_set
           ["Unemployment Rate"; "Civilian Employment"; "Unemployment Rate"]
           ["Civilian Employment"; "Unemployment Rate"]).
  intros n. rewrite !elem_of_cons, !elem_of_nil. tauto.
Defined.

(** ** Names and ids *)

Lemma series_names_values_NoDup : NoDup series_names.*2.
Proof. apply (bool_decide_unpack _). by vm_compute. Qed.

Lemma catalog_round_trip :
  Forall (λ item, selected_series_ids [item.2] = [item.1] ∧
                  displayName item.1 = item.2) series_names.
Proof. apply (bool_decide_unpack _). by vm_compute. Qed.

(** X3: the name given to a catalogued id leads back to that id alone: a
    selection made of the display name of an id of the catalog stands for
    exactly that id, so on the annotated dataset it keeps the rows of that
    series within the years and no row of another series. *)
Theorem display_name_selects_its_id (sid : string) :
  sid ∈ series_names.*1 →
  selected_series_ids [displayName sid] = [sid] ∧
  ∀ raw yrs, filtered_data (annotate raw) [displayName sid] yrs =
             year_slice sid yrs (annotate raw).
Proof.
  intros Hsid. apply list_elem_of_fmap in Hsid as ([sid' name] & -> & Hin).
  destruct (proj1 (Forall_forall _ _) catalog_round_trip _ Hin) as [Hids Hname].
  simpl in *. rewrite Hname. split; [done|].
  intros raw yrs. by apply filtered_data_one_name.
Qed.

Lemma display_name_selects_its_id_witness :
  selected_series_ids [displayName "CES0000000001"] = ["CES0000000001"].
Proof.
  apply (display_name_selects_its_id "CES0000000001").
  apply (bool_decide_unpack _). by vm_compute.
Defined.

Lemma annotate_series_name raw r :
  r ∈ annotate raw → series_name r = displayName (series_id r).
Proof. intros Hr. by apply list_elem_of_fmap in Hr as (o & -> & _). Qed.

Lemma displayName_catalogued sid :
  displayName sid ≠ "Unknown Series" ↔
  ∃ name, map_series_names sid = Some name.
Proof.
  destruct (map_series_names sid) as [name|] eqn:Hget.
  - rewrite (displayName_Some _ _ Hget). split; [by exists name|].
    intros _ ->. apply unknown_not_a_catalog_name.
    apply list_elem_of_fmap. exists (sid, "Unknown Series"). split; [done|].
    by apply map_series_names_Some.
  - rewrite (displayName_None _ Hget). split; [done|]. by intros [name [=]].
Qed.

(** On the annotated dataset an id is selected exactly when its row's name
    is a selected name other than the sentinel. *)
Lemma selected_by_name raw names r :
  r ∈ annotate raw →
  series_id r ∈ selected_series_ids names ↔
  series_name r ∈ names ∧ series_name r ≠ "Unknown Series".
Proof.
  intros Hr. rewrite (annotate_series_name raw r Hr).
  rewrite elem_of_selected_series_ids, displayName_catalogued. split.
  - intros (name & Hget & Hin). rewrite (displayName_Some _ _ Hget).
    split; [done|by exists name].
  - intros [Hin [name Hget]]. exists name.
    rewrite (displayName_Some _ _ Hget) in Hin. done.
Qed.

(** X4: on the annotated dataset, filtering through the ids is filtering on
    the display name column: a row is kept exactly when its name is one of
    the selected names other than "Unknown Series" and its year lies in the
    range; in particular every name in the filtered table is a selected
    name. *)
Theorem filtered_data_by_name (raw : list Observation) (names : list string)
    (yrs : Z * Z) :
  filtered_data (annotate raw) names yrs =
    filter (λ r, (series_name r ∈ names ∧ series_name r ≠ "Unknown Series") ∧
                 yrs.1 ≤ year r ∧ year r ≤ yrs.2) (annotate raw) ∧
  ∀ r, r ∈ filtered_data (annotate raw) names yrs →
       series_name r ∈ names ∧ series_name r ≠ "Unknown Series".
Proof.
  split.
  - unfold filtered_data. apply filter_ext_elem. intros r Hr.
    unfold keep_row, between. by rewrite (selected_by_name raw names r Hr).
  - intros r Hr. apply list_elem_of_filter in Hr as [[Hid _] Hr].
    by apply (selected_by_name raw names r Hr).
Qed.

(** ** The sidebar *)

Lemma default_options_catalog : default_options = series_names.*2.
Proof. reflexivity. Qed.

Lemma elem_of_available_options data name :
  name ∈ available_options data ↔ ∃ r, r ∈ data ∧ series_name r = name.
Proof.
  unfold available_options. rewrite elem_of_unique, list_elem_of_fmap.
  split; intros (r & ? & ?); by exists r.
Qed.

Lemma displayName_cases sid :
  displayName sid = "Unknown Series" ∨ displayName sid ∈ series_names.*2.
Proof.
  destruct (map_series_names sid) as [name|] eqn:Hget.
  - right. rewrite (displayName_Some _ _ Hget). apply list_elem_of_fmap.
    exists (sid, name). split; [done|]. by apply map_series_names_Some.
  - left. by apply displayName_None.
Qed.

(** X5: the multiselect offers every display name that occurs in the
    dataset once, and nothing else; on the annotated dataset an option is a
    catalog name or "Unknown Series", so there are at most seven options, and
    "Unknown Series" is offered exactly when some row has an id the catalog
    does not list. *)
Theorem available_options_spec (raw : list Observation) :
  NoDup (available_options (annotate raw)) ∧
  (∀ name, name ∈ available_options (annotate raw) ↔
           ∃ o, o ∈ raw ∧ displayName (o_series_id o) = name) ∧
  (∀ name, name ∈ available_options (annotate raw) →
           name = "Unknown Series" ∨ name ∈ series_names.*2) ∧
  (length (available_options (annotate raw)) ≤ 7)%nat ∧
  ("Unknown Series" ∈ available_options (annotate raw) ↔
   ∃ o, o ∈ raw ∧ o_series_id o ∉ series_names.*1).
Proof.
  assert (Hmem : ∀ name, name ∈ available_options (annotate raw) ↔
                         ∃ o, o ∈ raw ∧ displayName (o_series_id o) = name).
  { intros name. rewrite elem_of_available_options. split.
    - intros (r & Hr & <-). apply list_elem_of_fmap in Hr as (o & -> & Ho).
      by exists o.
    - intros (o & Ho & <-). exists (annotate_row o). split; [|done].
      apply list_elem_of_fmap. by exists o. }
  assert (Hnd : NoDup (available_options (annotate raw)))
    by apply unique_from_NoDup.
  assert (Hcases : ∀ name, name ∈ available_options (annotate raw) →
                           name = "Unknown Series" ∨ name ∈ series_names.*2).
  { intros name Hname. apply Hmem in Hname as (o & _ & <-).
    apply displayName_cases. }
  split; [done|]. split; [done|]. split; [done|]. split.
  - change 7%nat with (length ("Unknown Series" :: series_names.*2)).
    apply submseteq_length, NoDup_submseteq; [done|].
    intros name Hname. apply elem_of_cons. by apply Hcases.
  - rewrite Hmem. split.
    + intros (o & Ho & Hname). exists o. split; [done|].
      apply dict_get_None. destruct (map_series_names (o_series_id o)) as [n|] eqn:Hget;
        [|done].
      exfalso. apply (proj2 (displayName_catalogued (o_series_id o))); [|done].
      by exists n.
    + intros (o & Ho & Hid). exists o. split; [done|].
      apply displayName_None. by apply dict_get_None.
Qed.

(** X6: the names the multiselect starts with (line 50) are options, are
    catalog names and never "Unknown Series"; with them selected, the
    filtered table of the annotated dataset holds exactly the rows within the
    years whose id the catalog lists, that is, all rows but those named
    "Unknown Series". *)
Theorem present_default_options_spec (raw : list Observation) (yrs : Z * Z) :
  present_default_options (annotate raw) ⊆ available_options (annotate raw) ∧
  present_default_options (annotate raw) ⊆ series_names.*2 ∧
  ("Unknown Series" ∉ present_default_options (annotate raw)) ∧
  filtered_data (annotate raw) (present_default_options (annotate raw)) yrs =
    filter (λ r, series_name r ≠ "Unknown Series" ∧
                 yrs.1 ≤ year r ∧ year r ≤ yrs.2) (annotate raw).
Proof.
  assert (Hin : ∀ name, name ∈ present_default_options (annotate raw) ↔
                        name ∈ available_options (annotate raw) ∧
                        name ∈ series_names.*2).
  { intros name. unfold present_default_options.
    by rewrite list_elem_of_filter, default_options_catalog. }
  split; [intros name Hname; by apply Hin|].
  split; [intros name Hname; by apply Hin|].
  split.
  - intros Hunk. apply unknown_not_a_catalog_name. by apply Hin.
  - unfold filtered_data. apply filter_ext_elem. intros r Hr.
    unfold keep_row, between. rewrite (selected_by_name raw _ r Hr).
    split; [tauto|].
    intros [Hname Hyrs]. split; [|done]. split; [|done].
    apply Hin. split.
    + apply elem_of_available_options. by exists r.
    + rewrite (annotate_series_name raw r Hr) in *.
      by destruct (displayName_cases (series_id r)).
Qed.

(** X7: a year range whose lower bound exceeds its upper bound matches no
    year: the filtered table and its summary are empty and both pie totals
    are 0. *)
Theorem inverted_range_empty (data : list Row) (names : list string)
    (yrs : Z * Z) :
  yrs.2 < yrs.1 →
  filtered_data data names yrs = [] ∧
  summary (filtered_data data names yrs) = [] ∧
  employment_total data yrs = 0%float ∧
  unemployment_total data yrs = 0%float.
Proof.
  intros Hinv.
  assert (Hnil : ∀ (P : Row → Prop) `{!∀ r, Decision (P r)},
            filter (λ r, P r ∧ between yrs.1 yrs.2 (year r)) data = []).
  { intros P HP. apply elem_of_nil_inv. intros r Hr.
    apply list_elem_of_filter in Hr as [[_ [Hlo Hhi]] _]. lia. }
  assert (Hfilt : filtered_data data names yrs = []) by apply Hnil.
  rewrite Hfilt. split; [done|]. split; [done|].
  unfold employment_total, unemployment_total, filtered_employment,
    filtered_unemployment, year_slice.
  by rewrite !Hnil.
Qed.

Lemma inverted_range_empty_witness :
  filtered_data (annotate two_years) default_options (2020, 2019) = [].
Proof. apply inverted_range_empty. simpl. lia. Defined.

(** ** The year slider *)

Lemma foldl_min_spec (ys : list Z) (y : Z) :
  foldl Z.min y ys ∈ y :: ys ∧ ∀ z, z ∈ y :: ys → foldl Z.min y ys ≤ z.
Proof.
  revert y. induction ys as [|y' ys IH]; intros y; simpl.
  - split; [apply list_elem_of_singleton; done|].
    intros z Hz. apply list_elem_of_singleton in Hz. lia.
  - destruct (IH (Z.min y y')) as [Hin Hle]. split.
    + apply elem_of_cons in Hin as [-> | Hin].
      * destruct (Z.min_spec y y') as [[_ ->] | [_ ->]];
          rewrite !elem_of_cons; tauto.
      * rewrite !elem_of_cons. tauto.
    + intros z Hz. rewrite !elem_of_cons in Hz.
      pose proof (Hle (Z.min y y') ltac:(apply elem_of_cons; by left)) as Hm.
      destruct Hz as [-> | [-> | Hz]]; [lia..|].
      apply Hle. apply elem_of_cons. by right.
Qed.

Lemma foldl_max_spec (ys : list Z) (y : Z) :
  foldl Z.max y ys ∈ y :: ys ∧ ∀ z, z ∈ y :: ys → z ≤ foldl Z.max y ys.
Proof.
  revert y. induction ys as [|y' ys IH]; intros y; simpl.
  - split; [apply list_elem_of_singleton; done|].
    intros z Hz. apply list_elem_of_singleton in Hz. lia.
  - destruct (IH (Z.max y y')) as [Hin Hle]. split.
    + apply elem_of_cons in Hin as [-> | Hin].
      * destruct (Z.max_spec y y') as [[_ ->] | [_ ->]];
          rewrite !elem_of_cons; tauto.
      * rewrite !elem_of_cons. tauto.
    + intros z Hz. rewrite !elem_of_cons in Hz.
      pose proof (Hle (Z.max y y') ltac:(apply elem_of_cons; by left)) as Hm.
      destruct Hz as [-> | [-> | Hz]]; [lia..|].
      apply Hle. apply elem_of_cons. by right.
Qed.

Lemma column_min_Some ys lo :
  column_min ys = Some lo → lo ∈ ys ∧ ∀ z, z ∈ ys → lo ≤ z.
Proof. destruct ys as [|y ys]; [done|]. intros [= <-]. apply foldl_min_spec. Qed.

Lemma column_max_Some ys hi :
  column_max ys = Some hi → hi ∈ ys ∧ ∀ z, z ∈ ys → z ≤ hi.
Proof. destruct ys as [|y ys]; [done|]. intros [= <-]. apply foldl_max_spec. Qed.

(** X8: the slider cannot be set up on a dataset without rows (the script
    stops there); on any other dataset its bounds are the least and the
    greatest year of the dataset, both carried by some row, its initial
    value runs from 2019 to the upper bound, and with the slider at its full
    extent no row is dropped for its year: the filtered table holds every row
    of the selected series. *)
Theorem year_slider_spec (data : list Row) :
  (year_slider data = None ↔ data = []) ∧
  ∀ s, year_slider data = Some s →
    (∀ r, r ∈ data → min_value s ≤ year r ∧ year r ≤ max_value s) ∧
    (∃ r, r ∈ data ∧ year r = min_value s) ∧
    (∃ r, r ∈ data ∧ year r = max_value s) ∧
    initial_value s = (2019, max_value s) ∧
    ∀ names, filtered_data data names (min_value s, max_value s) =
             filter (λ r, series_id r ∈ selected_series_ids names) data.
Proof.
  split.
  - unfold year_slider. destruct data as [|r data]; simpl; [done|].
    split; [intros [=]|intros [=]].
  - intros s Hs. unfold year_slider in Hs.
    destruct (column_min (year <$> data)) as [lo|] eqn:Hlo; [|done].
    destruct (column_max (year <$> data)) as [hi|] eqn:Hhi; [|done].
    simpl in Hs. injection Hs as <-. simpl.
    apply column_min_Some in Hlo as [Hlo_in Hlo].
    apply column_max_Some in Hhi as [Hhi_in Hhi].
    assert (Hall : ∀ r, r ∈ data → lo ≤ year r ∧ year r ≤ hi).
    { intros r Hr. split; [apply Hlo|apply Hhi]; apply list_elem_of_fmap;
        by exists r. }
    split; [done|].
    split; [apply list_elem_of_fmap in Hlo_in as (r & -> & Hr); by exists r|].
    split; [apply list_elem_of_fmap in Hhi_in as (r & -> & Hr); by exists r|].
    split; [done|].
    intros names. unfold filtered_data. apply filter_ext_elem. intros r Hr.
    unfold keep_row, between. simpl. specialize (Hall r Hr). tauto.
Qed.

Lemma year_slider_spec_witness :
  year_slider (annotate two_years) = Some (mkSlider 2019 2020 (2019, 2020)) ∧
  filtered_data (annotate two_years) default_options (2019, 2020) =
  filter (λ r, series_id r ∈ selected_series_ids default_options) (annotate two_years).
Proof.
  assert (Hs : year_slider (annotate two_years) = Some (mkSlider 2019 2020 (2019, 2020)))
    by by vm_compute.
  split; [exact Hs|].
  exact (proj2 (proj2 (proj2 (proj2
           (proj2 (year_slider_spec (annotate two_years)) _ Hs)))) default_options).
Defined.

(** ** The views of one series *)

Lemma series_slice_filtered_data_cases sid data names yrs :
  series_slice sid (filtered_data data names yrs) =
  if decide (sid ∈ selected_series_ids names) then year_slice sid yrs data else [].
Proof.
  unfold series_slice, filtered_data, year_slice. rewrite list_filter_filter.
  case_decide as Hsel.
  - apply list_filter_iff. intros r. unfold keep_row. split.
    + tauto.
    + intros [-> Hyrs]. done.
  - apply elem_of_nil_inv. intros r Hr.
    apply list_elem_of_filter in Hr as [[<- [Hid _]] _]. done.
Qed.

Lemma catalog_name_selected sid name names :
  map_series_names sid = Some name →
  sid ∈ selected_series_ids names ↔ name ∈ names.
Proof.
  intros Hget. rewrite elem_of_selected_series_ids. split.
  - intros (name' & Hget' & Hin). congruence.
  - intros Hin. by exists name.
Qed.

(** X9: the unemployment-rate plot shows the rows of series LNS14000000
    within the selected years when "Unemployment Rate" is selected and
    nothing otherwise; the nonfarm plot does the same for CES0000000001 and
    "Total Nonfarm Employment". *)
Theorem single_series_plots (data : list Row) (names : list string) (yrs : Z * Z) :
  unemployment_data (filtered_data data names yrs) =
    (if decide ("Unemployment Rate" ∈ names)
     then year_slice "LNS14000000" yrs data else []) ∧
  nonfarm_data (filtered_data data names yrs) =
    (if decide ("Total Nonfarm Employment" ∈ names)
     then year_slice "CES0000000001" yrs data else []).
Proof.
  unfold unemployment_data, nonfarm_data.
  rewrite !series_slice_filtered_data_cases. split.
  - apply decide_ext. by apply catalog_name_selected.
  - apply decide_ext. by apply catalog_name_selected.
Qed.

(** X10: when "Civilian Employment" is selected, the employment total of the
    pie is the sum of the values of the employment rows of the data table;
    when it is not selected the data table has no employment row, while the
    pie total is unchanged.  The same holds for "Civilian Unemployment". *)
Theorem pie_against_data_table (data : list Row) (names : list string)
    (yrs : Z * Z) :
  let table := filtered_data data names yrs in
  ("Civilian Employment" ∈ names →
   employment_total data yrs = sum (value <$> series_slice "LNS12000000" table)) ∧
  ("Civilian Employment" ∉ names → series_slice "LNS12000000" table = []) ∧
  ("Civilian Unemployment" ∈ names →
   unemployment_total data yrs = sum (value <$> series_slice "LNS13000000" table)) ∧
  ("Civilian Unemployment" ∉ names → series_slice "LNS13000000" table = []).
Proof.
  intros table. subst table. rewrite !series_slice_filtered_data_cases.
  rewrite (decide_ext _ ("Civilian Employment" ∈ names))
    by by apply catalog_name_selected.
  rewrite (decide_ext ("LNS13000000" ∈ _) ("Civilian Unemployment" ∈ names))
    by by apply catalog_name_selected.
  repeat split; intros Hsel.
  - by rewrite decide_True by done.
  - by rewrite decide_False by done.
  - by rewrite decide_True by done.
  - by rewrite decide_False by done.
Qed.

Lemma pie_against_data_table_witness :
  employment_total (annotate two_years) (2019, 2020) =
  sum (value <$> series_slice "LNS12000000"
                   (filtered_data (annotate two_years) default_options (2019, 2020))).
Proof.
  apply (pie_against_data_table (annotate two_years) default_options (2019, 2020)).
  apply (bool_decide_unpack _). by vm_compute.
Defined.

(** ** Order and counts of the summary table *)

Lemma leb_false_ltb a b : String.leb a b = false → key_lt b a.
Proof.
  unfold String.leb, key_lt, String.ltb. rewrite (String.compare_antisym b a).
  by destruct (String.compare a b).
Qed.

Lemma leb_ne_ltb a b : String.leb a b = true → a ≠ b → key_lt a b.
Proof.
  unfold String.leb, key_lt, String.ltb. intros Hle Hne.
  destruct (String.compare a b) eqn:Hcmp; [|done..].
  by apply String.compare_eq_iff in Hcmp.
Qed.

Lemma insert_key_HdRel a k l :
  key_lt a k → HdRel key_lt a l → HdRel key_lt a (insert_key k l).
Proof.
  intros Hak Hal. destruct l as [|k' l]; simpl; [by constructor|].
  destruct (String.leb k k'); constructor; [done|]. by inversion Hal.
Qed.

Lemma insert_key_Sorted k l :
  k ∉ l → Sorted key_lt l → Sorted key_lt (insert_key k l).
Proof.
  induction l as [|k' l IH]; intros Hk Hsorted; simpl.
  - by repeat constructor.
  - apply not_elem_of_cons in Hk as [Hne Hk].
    apply Sorted_inv in Hsorted as [Hsorted Hhd].
    destruct (String.leb k k') eqn:Hle.
    + constructor; [by constructor|]. constructor. by apply leb_ne_ltb.
    + constructor; [by apply IH|].
      apply insert_key_HdRel; [by apply leb_false_ltb|done].
Qed.

Lemma group_keys_Sorted keys : Sorted key_lt (group_keys keys).
Proof.
  unfold group_keys, unique.
  pose proof (unique_from_NoDup [] keys) as Hnd.
  induction Hnd as [|k l Hk Hnd IH]; simpl; [constructor|].
  apply insert_key_Sorted; [|done]. by rewrite foldr_insert_key_perm.
Qed.

(** X11: the rows of the summary table come in strictly ascending order of
    their display names; for the table filtered from the annotated dataset
    every one of these names is a selected name of the catalog, and it has a
    row exactly when some row of its series lies within the years. *)
Theorem summary_rows_order (raw : list Observation) (names : list string)
    (yrs : Z * Z) :
  let table := summary (filtered_data (annotate raw) names yrs) in
  Sorted key_lt table.*1 ∧
  (∀ g, g ∈ table.*1 → g ∈ names ∧ g ∈ series_names.*2) ∧
  (∀ g, g ∈ table.*1 ↔
        g ∈ names ∧
        ∃ o, o ∈ raw ∧ map_series_names (o_series_id o) = Some g ∧
             yrs.1 ≤ o_year o ∧ o_year o ≤ yrs.2).
Proof.
  intros table. subst table. rewrite summary_keys.
  assert (Hkeys : ∀ g, g ∈ group_keys (series_name <$> filtered_data (annotate raw) names yrs) ↔
        g ∈ names ∧
        ∃ o, o ∈ raw ∧ map_series_names (o_series_id o) = Some g ∧
             yrs.1 ≤ o_year o ∧ o_year o ≤ yrs.2).
  { intros g. rewrite elem_of_group_keys, list_elem_of_fmap. split.
    - intros (r & -> & Hr). apply elem_of_filtered_data in Hr
        as [Hr [(name & Hget & Hin) Hyrs]].
      apply list_elem_of_fmap in Hr as (o & -> & Ho). simpl in *.
      rewrite (displayName_Some _ _ Hget). split; [done|]. by exists o.
    - intros (Hin & o & Ho & Hget & Hyrs). exists (annotate_row o). split.
      + simpl. by rewrite (displayName_Some _ _ Hget).
      + apply elem_of_filtered_data. split; [apply list_elem_of_fmap; by exists o|].
        split; [by exists g|done]. }
  split; [apply group_keys_Sorted|]. split; [|done].
  intros g Hg. apply Hkeys in Hg as (Hin & o & _ & Hget & _). split; [done|].
  apply list_elem_of_fmap. exists (o_series_id o, g). split; [done|].
  by apply map_series_names_Some.
Qed.

Lemma sum_list_with_zero {A} (l : list A) : sum_list_with (λ _, 0%nat) l = 0%nat.
Proof. induction l as [|x l IH]; simpl; [done|by rewrite IH]. Qed.

Lemma sum_list_with_add {A} (f g : A → nat) (l : list A) :
  sum_list_with (λ x, (f x + g x)%nat) l =
  (sum_list_with f l + sum_list_with g l)%nat.
Proof. induction l as [|x l IH]; simpl; [done|]. rewrite IH. lia. Qed.

Lemma sum_list_with_ext_in {A} (f g : A → nat) (l : list A) :
  (∀ x, x ∈ l → f x = g x) → sum_list_with f l = sum_list_with g l.
Proof.
  induction l as [|x l IH]; intros Hext; simpl; [done|].
  rewrite Hext by (apply elem_of_cons; by left).
  rewrite IH; [done|]. intros y Hy. apply Hext, elem_of_cons. by right.
Qed.

Lemma sum_list_with_compose {A B} (f : B → nat) (h : A → B) (l : list A) :
  sum_list_with f (h <$> l) = sum_list_with (λ x, f (h x)) l.
Proof. induction l as [|x l IH]; csimpl; [done|by rewrite IH]. Qed.

Lemma sum_list_with_indicator (k : string) (n : nat) (ks : list string) :
  NoDup ks → k ∈ ks →
  sum_list_with (λ g, if decide (k = g) then n else 0%nat) ks = n.
Proof.
  induction 1 as [|k' ks Hk' Hnd IH]; intros Hin; simpl.
  - by apply elem_of_nil in Hin.
  - apply elem_of_cons in Hin as [-> | Hin].
    + rewrite decide_True by done.
      rewrite (sum_list_with_ext_in _ (λ _, 0%nat)), sum_list_with_zero; [lia|].
      intros g Hg. rewrite decide_False; [done|]. by intros ->.
    + rewrite decide_False by (by intros ->). by rewrite IH.
Qed.

Lemma count_group_cons g r l :
  count (value <$> group_rows g (r :: l)) =
  ((if decide (series_name r = g) then count [value r] else 0) +
   count (value <$> group_rows g l))%nat.
Proof.
  unfold group_rows, count. rewrite filter_cons. case_decide; [|done].
  rewrite fmap_cons, !filter_cons. simpl. by case_decide.
Qed.

Lemma group_counts_add_up (ks : list string) (l : list Row) :
  NoDup ks → (∀ r, r ∈ l → series_name r ∈ ks) →
  sum_list_with (λ g, count (value <$> group_rows g l)) ks = count (value <$> l).
Proof.
  intros Hnd. induction l as [|r l IH]; intros Hks.
  - apply sum_list_with_zero.
  - rewrite (sum_list_with_ext_in _ _ _ (λ g _, count_group_cons g r l)).
    rewrite sum_list_with_add, IH
      by (intros r' Hr'; apply Hks, elem_of_cons; by right).
    rewrite sum_list_with_indicator;
      [|done|apply Hks, elem_of_cons; by left].
    unfold count. rewrite fmap_cons, !filter_cons. simpl. by case_decide.
Qed.

(** X12: the groups of the summary table split the filtered table: the
    counts of its rows add up to the number of rows of the filtered table
    whose value is not missing, and no count exceeds the number of rows of
    its group. *)
Theorem summary_counts_add_up (fv : list Row) :
  sum_list_with (λ row, d_count row.2) (summary fv) = count (value <$> fv) ∧
  ∀ g d, (g, d) ∈ summary fv → (d_count d ≤ length (group_rows g fv))%nat.
Proof.
  split.
  - unfold summary. rewrite sum_list_with_compose. simpl.
    apply group_counts_add_up; [apply group_keys_NoDup|].
    intros r Hr. apply elem_of_group_keys, list_elem_of_fmap. by exists r.
  - intros g d Hgd. apply elem_of_summary in Hgd as [_ ->]. simpl.
    unfold count. etrans; [apply length_filter|]. by rewrite length_fmap.
Qed.

(** ** The comparison table, row by row *)

Lemma matches_unique d right :
  NoDup right.*1 → d ∈ right.*1 →
  ∃ r, matches d right = [r] ∧ r ∈ right ∧ r.1 = d.
Proof.
  intros Hnd Hd. pose proof (length_matches_NoDup d right Hnd) as Hlen.
  apply list_elem_of_fmap in Hd as (r & -> & Hr).
  assert (Hin : r ∈ matches r.1 right) by by apply list_elem_of_filter.
  destruct (matches r.1 right) as [|r' [|r'' rest]] eqn:Hm.
  - by apply elem_of_nil in Hin.
  - apply list_elem_of_singleton in Hin as ->. by exists r'.
  - simpl in Hlen. lia.
Qed.

Lemma merge_on_date_one_to_one left right :
  NoDup right.*1 → (∀ l, l ∈ left → l.1 ∈ right.*1) →
  (λ m, (m_date m, avg_weekly_hours m)) <$> merge_on_date left right = left ∧
  ∀ m, m ∈ merge_on_date left right →
       (m_date m, avg_hourly_earnings m) ∈ right.
Proof.
  intros Hnd Hall. split.
  - induction left as [|l left IH]; [done|].
    rewrite merge_on_date_cons, fmap_app.
    destruct (matches_unique l.1 right Hnd) as (r & -> & _ & _);
      [apply Hall, elem_of_cons; by left|].
    rewrite IH by (intros l' Hl'; apply Hall, elem_of_cons; by right).
    simpl. by destruct l.
  - intros m Hm. apply elem_of_merge_on_date in Hm as (l & r & _ & Hr & Heq & ->).
    simpl. rewrite Heq. by destruct r.
Qed.

(** X14: when no date occurs twice among the hourly-earnings rows and every
    weekly-hours row has an hourly-earnings row of its date, the comparison
    table has exactly one row per weekly-hours row, in the order of these
    rows, with that row's date and value, next to the value of an
    hourly-earnings row of the same date. *)
Theorem merged_data_one_to_one (data : list Row) :
  NoDup (date <$> earnings_data data) →
  (∀ h, h ∈ hours_data data → date h ∈ date <$> earnings_data data) →
  (λ m, (m_date m, avg_weekly_hours m)) <$> merged_data data =
    (λ h, (date h, value h)) <$> hours_data data ∧
  length (merged_data data) = length (hours_data data) ∧
  ∀ m, m ∈ merged_data data →
       ∃ e, e ∈ earnings_data data ∧ date e = m_date m ∧
            value e = avg_hourly_earnings m.
Proof.
  intros Hnd Hall. unfold merged_data.
  destruct (merge_on_date_one_to_one (date_value (hours_data data))
              (date_value (earnings_data data))) as [Hleft Hright].
  { by rewrite date_value_dates. }
  { intros l Hl. rewrite date_value_dates.
    apply list_elem_of_fmap in Hl as (h & -> & Hh). by apply Hall. }
  split; [exact Hleft|]. split.
  - rewrite <- (length_fmap (λ m, (m_date m, avg_weekly_hours m))), Hleft.
    unfold date_value. by rewrite length_fmap.
  - intros m Hm. apply Hright in Hm.
    apply list_elem_of_fmap in Hm as (e & [= -> ->] & He). by exists e.
Qed.

Lemma merged_data_one_to_one_witness :
  length (merged_data (annotate two_years)) =
  length (hours_data (annotate two_years)).
Proof.
  apply (merged_data_one_to_one (annotate two_years)).
  - apply (bool_decide_unpack _). by vm_compute.
  - apply Forall_forall. apply (bool_decide_unpack _). by vm_compute.
Defined.

(** X15: the comparison table is empty when the two series share no date, in
    particular when the dataset has no weekly-hours row or no hourly-earnings
    row; otherwise it is not empty. *)
Theorem merged_data_empty_iff (data : list Row) :
  merged_data data = [] ↔
  ∀ h e, h ∈ hours_data data → e ∈ earnings_data data → date h ≠ date e.
Proof.
  destruct (merged_data data) as [|m ms] eqn:Hm.
  - split; [|done]. intros _ h e Hh He Heq.
    assert (Hin : mkMerged (date h) (value h) (value e) ∈ merged_data data).
    { unfold merged_data. apply elem_of_merge_on_date.
      exists (date h, value h), (date e, value e).
      split; [apply list_elem_of_fmap; by exists h|].
      split; [apply list_elem_of_fmap; by exists e|]. done. }
    rewrite Hm in Hin. by apply elem_of_nil in Hin.
  - split; [done|]. intros Hno. exfalso.
    assert (Hin : m ∈ merged_data data) by (rewrite Hm; apply elem_of_cons; by left).
    unfold merged_data in Hin.
    apply elem_of_merge_on_date in Hin as (l & r & Hl & Hr & Heq & _).
    apply list_elem_of_fmap in Hl as (h & -> & Hh).
    apply list_elem_of_fmap in Hr as (e & -> & He).
    by apply (Hno h e).
Qed.
